(** * detect_ssid: the phone-artifact SSID detector of src/detect_ssid.cpp

    A shallow embedding of the four functions of the program
    ([get_wireless_interface_name], [search_for_phone_ssid],
    [ssid_network_scan], [main]) and the properties of them that the
    specification states.

    Conventions of the embedding:
    - [std::string] and C strings are [string]; a C string is given by its
      contents, without the terminating NUL;
    - [std::size_t] offsets are [nat]; [std::string::npos] is [None];
    - the files the program can open are a [FileSystem], an association list
      from file names to what reading the file gives: its contents, or a
      read error;
    - what [system()] does is not in the program: it is a [Shell], a function
      from the command line and the file system to an exit status and a new
      file system;
    - everything the program writes (stderr, the ROS log, the published
      messages, the commands it runs) is collected in a list of [Event]s. *)

From Stdlib Require Import String Ascii List Arith Bool ZArith Lia.
Import ListNotations.
Open Scope string_scope.

(** ** The [std::string] operations the program uses *)

Module StdString.

(** The first [n] characters of [s] (all of [s] when it is shorter). *)
Fixpoint take (n : nat) (s : string) : string :=
  match n, s with
  | S n', String c s' => String c (take n' s')
  | _, _ => EmptyString
  end.

(** [s] without its first [n] characters. *)
Fixpoint drop (n : nat) (s : string) : string :=
  match n, s with
  | S n', String _ s' => drop n' s'
  | _, _ => s
  end.

(** Does [s] begin with [p]?  Comparison is by character, case-sensitive. *)
Fixpoint starts_with (s p : string) {struct p} : bool :=
  match p, s with
  | EmptyString, _ => true
  | String _ _, EmptyString => false
  | String a p', String b s' => Ascii.eqb a b && starts_with s' p'
  end.

(** [s.find(p)] scanning forward from an offset [pos] of the original
    string, [s] being what is left of it from [pos] on.  The end of the
    string is a candidate position too, where only the empty [p] matches. *)
Fixpoint find_at (s p : string) (pos : nat) : option nat :=
  if starts_with s p then Some pos
  else match s with
       | EmptyString => None
       | String _ s' => find_at s' p (S pos)
       end.

(** [s.find(p)]: the lowest offset at which [p] occurs in [s], [None] for
    [std::string::npos]. *)
Definition find (s p : string) : option nat := find_at s p 0.

(** What a call can end in: a value, or one of the two exceptions that can
    leave the program's calls: [std::out_of_range], which [substr] throws,
    and [std::ios_base::failure], which reading from a file buffer throws. *)
Inductive result (A : Type) : Type :=
| Ok (a : A)
| OutOfRange
| IosFailure.
Arguments Ok {A} a.
Arguments OutOfRange {A}.
Arguments IosFailure {A}.

(** [s.substr(pos, n)]: the characters of [s] in [pos, min(pos + n, size))];
    throws when [pos > size]. *)
Definition substr (s : string) (pos n : nat) : result string :=
  if (pos <=? String.length s)%nat then Ok (take n (drop pos s)) else OutOfRange.

(** [strlen]. *)
Definition strlen (s : string) : nat := String.length s.

(** [s[i]] as the program reads it from a C string.  The index of the last
    character plus one holds the terminating NUL; [getifaddrs] keeps names in
    zero-filled buffers of [IF_NAMESIZE + 1] bytes, where later indices read
    NUL as well. *)
Definition char_at (s : string) (i : nat) : ascii :=
  match String.get i s with
  | Some c => c
  | None => Ascii.zero
  end.

End StdString.
Import StdString.

(** [p] occurs in [s] at offset [i]. *)
Definition occurs_at (s p : string) (i : nat) : Prop :=
  exists a b, s = a ++ p ++ b /\ String.length a = i.

(** [s] contains [p]. *)
Definition contains (s p : string) : Prop := exists i, occurs_at s p i.

(** [i] is the offset of the first occurrence of [p] in [s]. *)
Definition first_occurrence (s p : string) (i : nat) : Prop :=
  occurs_at s p i /\ forall j, j < i -> ~ occurs_at s p j.

(** [p] occurs in [s] at offset [i] with at least [k] characters after it. *)
Definition occurs_with_tail (s p : string) (k i : nat) : Prop :=
  exists a b, s = a ++ p ++ b /\ String.length a = i /\ k <= String.length b.

(** ** The world around the program *)

(** Address families of [<sys/socket.h>] that the program tells apart. *)
Inductive sa_family_t : Type :=
| AF_INET
| AF_INET6
| AF_PACKET
| AF_OTHER (n : nat).

Record sockaddr : Type := { sa_family : sa_family_t }.

(** One node of the list [getifaddrs] builds; [ifa_next] is the tail of the
    Rocq list, and [ifa_addr = None] is the NULL pointer. *)
Record ifaddrs : Type := {
  ifa_name : string;
  ifa_addr : option sockaddr
}.

(** What [getifaddrs] answers: [-1] with an [errno], or the list. *)
Inductive getifaddrs_result : Type :=
| GetifaddrsFailed (strerror_errno : string)
| GetifaddrsList (ifaddr : list ifaddrs).

(** What reading a file that was opened gives: its contents up to the end
    of the file, or a read error (the name is a directory, the device
    fails). *)
Inductive File : Type :=
| Contents (text : string)
| Unreadable.

(** The files that can be opened for reading, by name; the first entry of a
    name is the file. *)
Definition FileSystem : Type := list (string * File).

(** [std::ifstream infile(name)]: [None] when the stream is not good after
    the constructor, the file that reading will meet otherwise. *)
Fixpoint read_file (fs : FileSystem) (name : string) : option File :=
  match fs with
  | [] => None
  | (n, file) :: fs' =>
      if String.eqb n name then Some file else read_file fs' name
  end.

(** [system(command)]: the status it returns and the files it leaves. *)
Definition Shell : Type := string -> FileSystem -> Z * FileSystem.

(** What the program does to the outside, in order. *)
Inductive Event : Type :=
| Stderr (text : string)
| RosInfo (text : string)
| System (command : string)
| Publish (topic : string) (data : string).

Definition newline : string := String (ascii_of_nat 10) EmptyString.

(** ** The program *)

Definition is_inet (family : sa_family_t) : bool :=
  match family with
  | AF_INET | AF_INET6 => true
  | _ => false
  end.

(** The test of line 93 on an interface name. *)
Definition wireless_name (name : string) : bool :=
  Ascii.eqb (char_at name 0) "w"%char && Ascii.eqb (char_at name 2) "x"%char.

(** The [for] loop of [get_wireless_interface_name], from the node [ifa] on.
    It returns the value of [ifa] when the loop is left ([[]] for NULL, the
    list from the chosen node on after [break]), [iface_name] and what was
    written to stderr. *)
Fixpoint walk_ifaddrs (ifa : list ifaddrs) (iface_name : string)
  : list ifaddrs * string * list Event :=
  match ifa with
  | [] => ([], iface_name, [])
  | node :: ifa_next =>
      match ifa_addr node with
      | None => walk_ifaddrs ifa_next iface_name
      | Some addr =>
          let family := sa_family addr in
          if is_inet family then
            if wireless_name (ifa_name node) then
              (ifa,
               ifa_name node,
               [Stderr ("selecting this interface: " ++ ifa_name node ++ newline)])
            else walk_ifaddrs ifa_next iface_name
          else walk_ifaddrs ifa_next iface_name
      end
  end.

(** [get_wireless_interface_name(iface_name)]: the returned [int], the
    out-parameter and the stderr output. *)
Definition get_wireless_interface_name
    (os : getifaddrs_result) (iface_name : string) : Z * string * list Event :=
  match os with
  | GetifaddrsFailed msg =>
      ((-1)%Z, iface_name,
       [Stderr ("getifaddrs failure, errno: " ++ msg ++ newline)])
  | GetifaddrsList ifaddr =>
      let '(ifa, iface_name, err) := walk_ifaddrs ifaddr iface_name in
      match ifa with
      | [] => ((-1)%Z, iface_name,
               (err ++ [Stderr ("ifa NULL, no interface selected" ++ newline)])%list)
      | _ :: _ => (0%Z, iface_name, err)
      end
  end.

(** [search_for_phone_ssid(ssid_filename, phone_artifact_ssid, phone_network)]:
    the returned [bool] and the out-parameter [phone_network], whose value at
    the call is the last argument.  The file system is only read.  The
    [istreambuf_iterator]s of line 154 read from the file buffer itself, so
    that a read error leaves the function as [std::ios_base::failure]. *)
Definition search_for_phone_ssid (fs : FileSystem)
    (ssid_filename phone_artifact_ssid phone_network : string)
  : result (bool * string) :=
  let phone_network := EmptyString in
  match read_file fs ssid_filename with
  | None => Ok (false, phone_network)
  | Some Unreadable => IosFailure
  | Some (Contents file_contents) =>
      match find file_contents phone_artifact_ssid with
      | Some found =>
          match substr file_contents found (strlen phone_artifact_ssid + 2) with
          | Ok sub => Ok (true, sub)
          | OutOfRange => OutOfRange
          | IosFailure => IosFailure
          end
      | None => Ok (false, phone_network)
      end
  end.

(** The command line [ssid_network_scan] builds. *)
Definition scan_command (ifname ssid_filename : string) : string :=
  "iwlist " ++ ifname ++ " scan | grep SSID > " ++ ssid_filename.

(** [ssid_network_scan(ifname, ssid_filename)] returns [void]: what is left of
    the call is the command it ran and the files the command left. *)
Definition ssid_network_scan (system : Shell) (fs : FileSystem)
    (ifname ssid_filename : string) : list Event * FileSystem :=
  let command_string := scan_command ifname ssid_filename in
  let '(_, fs') := system command_string fs in
  ([System command_string], fs').

(** [s.c_str()] as [strlen], [%s] and [operator<<] read it: the characters
    before the first NUL. *)
Fixpoint c_str (s : string) : string :=
  match s with
  | EmptyString => EmptyString
  | String c s' =>
      if Ascii.eqb c Ascii.zero then EmptyString else String c (c_str s')
  end.

(** The constants of [main]. *)
Definition ssid_filename : string := "ssid_list.txt".
Definition phone_artifact_ssid : string := "Pixel' hector".
Definition topic : string := "wifiAvailable".

(** One pass through the body of the [while] loop of [main].  [msg] is a new
    message in every pass; [phone_network_name] lives across passes.  The
    last component is [phone_network_name] after the pass, or the exception
    that left the pass.  [ros::spinOnce] and [loop_rate.sleep] only pass
    time. *)
Definition cycle (system : Shell) (fs : FileSystem)
    (wifiname phone_network_name : string)
  : list Event * FileSystem * result string :=
  let msg_data := EmptyString in
  let '(scanned, fs) := ssid_network_scan system fs (c_str wifiname) ssid_filename in
  match search_for_phone_ssid fs ssid_filename phone_artifact_ssid phone_network_name with
  | OutOfRange => (scanned, fs, OutOfRange)
  | IosFailure => (scanned, fs, IosFailure)
  | Ok (true, phone_network_name) =>
      let msg_data := phone_network_name in
      ((scanned ++
        [Stderr ("found " ++ c_str phone_network_name ++ newline);
         RosInfo (c_str msg_data);
         Publish topic msg_data])%list,
       fs, Ok phone_network_name)
  | Ok (false, phone_network_name) =>
      ((scanned ++
        [Stderr ("did not find " ++ phone_artifact_ssid ++ newline);
         RosInfo (c_str msg_data);
         Publish topic msg_data])%list,
       fs, Ok phone_network_name)
  end.

(** The [while (ros::ok())] loop.  [ros::ok()] holds once for every element
    of [ticks], which is what [system] does in that pass, and then fails.
    The result is the value [main] returns ([None] when an exception that
    nothing catches ended the process), the events and the files left. *)
Fixpoint poll_loop (ticks : list Shell) (fs : FileSystem)
    (wifiname phone_network_name : string)
  : option Z * list Event * FileSystem :=
  match ticks with
  | [] => (Some 0%Z, [], fs)
  | system :: ticks' =>
      match cycle system fs wifiname phone_network_name with
      | (events, fs', Ok phone_network_name') =>
          let '(code, later, fs'') :=
            poll_loop ticks' fs' wifiname phone_network_name' in
          (code, (events ++ later)%list, fs'')
      | (events, fs', OutOfRange) => (None, events, fs')
      | (events, fs', IosFailure) => (None, events, fs')
      end
  end.

(** [main]: the exit code, the events and the files left. *)
Definition main (os : getifaddrs_result) (ticks : list Shell) (fs : FileSystem)
  : option Z * list Event * FileSystem :=
  let phone_network_name := EmptyString in
  let wifiname := EmptyString in
  let '(status, wifiname, err) := get_wireless_interface_name os wifiname in
  if negb (Z.eqb status 0) then
    (Some 1%Z,
     (err ++ [Stderr ("did not read wireless interface name, terminating" ++ newline)])%list,
     fs)
  else
    let '(code, events, fs') := poll_loop ticks fs wifiname phone_network_name in
    (code, (err ++ events)%list, fs').

(** The reports published, in order. *)
Fixpoint published (events : list Event) : list string :=
  match events with
  | [] => []
  | Publish _ data :: events' => data :: published events'
  | _ :: events' => published events'
  end.

(** The commands run through [system], in order. *)
Fixpoint commands (events : list Event) : list string :=
  match events with
  | [] => []
  | System command :: events' => command :: commands events'
  | _ :: events' => commands events'
  end.

(** Can the scan output be read to its end, once opened?  A file that
    cannot be opened has nothing to read. *)
Definition scan_readable (fs : FileSystem) : bool :=
  match read_file fs ssid_filename with
  | Some Unreadable => false
  | _ => true
  end.

(** The files as each of the passes that run finds them after its scan,
    when every pass runs [command]: one state for each element of [ticks],
    up to the first state whose scan output cannot be read, which is the
    last. *)
Fixpoint scan_states (ticks : list Shell) (command : string) (fs : FileSystem)
  : list FileSystem :=
  match ticks with
  | [] => []
  | system :: ticks' =>
      let fs' := snd (system command fs) in
      fs' :: (if scan_readable fs' then scan_states ticks' command fs' else [])
  end.

(** ** The specification's vocabulary *)

(** An interface the selector may choose: it has an address of family
    IPv4 or IPv6, and its name has [w] first and [x] third. *)
Definition selectable (node : ifaddrs) : bool :=
  match ifa_addr node with
  | Some addr => is_inet (sa_family addr) && wireless_name (ifa_name node)
  | None => false
  end.

(** The Report of the specification for the scan output the files hold: the
    matched network, or the empty string. *)
Definition spec_report (fs : FileSystem) : string :=
  match read_file fs ssid_filename with
  | None | Some Unreadable => EmptyString
  | Some (Contents text) =>
      match find text phone_artifact_ssid with
      | Some i => take (strlen phone_artifact_ssid + 2) (drop i text)
      | None => EmptyString
      end
  end.

(** A [system] whose command touches no file and ends with [status]. *)
Definition system_status (status : Z) : Shell := fun _ fs => (status, fs).

(** A [system] that cannot start the command: [-1], and no file is touched. *)
Definition system_not_started : Shell := system_status (-1).

(** A [system] whose command runs and leaves [text] in the file [name]. *)
Definition system_writes (name text : string) : Shell :=
  fun _ fs => (0%Z, (name, Contents text) :: fs).

(** ** Facts about strings *)

Section StringFacts.

Lemma sapp_assoc (a b c : string) : (a ++ b) ++ c = a ++ b ++ c.
Proof. induction a as [|x a IH]; simpl; [reflexivity | now rewrite IH]. Qed.

Lemma length_app (a b : string) :
  String.length (a ++ b) = String.length a + String.length b.
Proof. induction a as [|x a IH]; simpl; [reflexivity | now rewrite IH]. Qed.

Lemma length_zero (s : string) : String.length s = 0 -> s = "".
Proof. destruct s; simpl; [reflexivity | discriminate]. Qed.

Lemma drop_app (a b : string) : drop (String.length a) (a ++ b) = b.
Proof. induction a as [|x a IH]; simpl; [now destruct b | exact IH]. Qed.

Lemma take_app (a b : string) (k : nat) :
  take (String.length a + k) (a ++ b) = a ++ take k b.
Proof. induction a as [|x a IH]; simpl; [reflexivity | now rewrite IH]. Qed.

Lemma take_all (n : nat) (s : string) : String.length s <= n -> take n s = s.
Proof.
  revert n; induction s as [|c s IH]; intros [|n] H; simpl in *;
    try reflexivity; try lia.
  rewrite IH by lia; reflexivity.
Qed.

Lemma length_take (n : nat) (s : string) :
  String.length (take n s) = Nat.min n (String.length s).
Proof.
  revert s; induction n as [|n IH]; intros [|c s]; simpl; try reflexivity.
  now rewrite IH.
Qed.

Lemma length_drop (n : nat) (s : string) :
  String.length (drop n s) = String.length s - n.
Proof.
  revert s; induction n as [|n IH]; intros [|c s]; simpl; try reflexivity.
  apply IH.
Qed.

(** A string is its first [n] characters followed by the rest. *)
Lemma take_drop (n : nat) (s : string) : take n s ++ drop n s = s.
Proof.
  revert s; induction n as [|n IH]; intros [|c s]; simpl; try reflexivity.
  now rewrite IH.
Qed.

Lemma take_take_app (n : nat) (a b : string) :
  n <= String.length a -> take n (a ++ b) = take n a.
Proof.
  revert a; induction n as [|n IH]; intros [|c a] H; simpl in *;
    try lia.
  - now destruct b.
  - reflexivity.
  - rewrite IH by lia; reflexivity.
Qed.

Lemma starts_with_app (p b : string) : starts_with (p ++ b) p = true.
Proof.
  induction p as [|c p IH]; simpl; [reflexivity|].
  now rewrite Ascii.eqb_refl, IH.
Qed.

Lemma starts_with_split (s p : string) :
  starts_with s p = true -> s = p ++ drop (String.length p) s.
Proof.
  revert s; induction p as [|c p IH]; intros s H; simpl in *.
  - now destruct s.
  - destruct s as [|d s]; [discriminate|].
    apply andb_true_iff in H as [Hc Hp].
    apply Ascii.eqb_eq in Hc; subst d.
    simpl; f_equal; now apply IH.
Qed.

Lemma occurs_at_zero (s p : string) :
  occurs_at s p 0 <-> starts_with s p = true.
Proof.
  split.
  - intros (a & b & -> & Ha). apply length_zero in Ha; subst a.
    simpl. apply starts_with_app.
  - intros H. exists "", (drop (String.length p) s); split; [|reflexivity].
    now apply starts_with_split.
Qed.

Lemma occurs_at_succ (c : ascii) (s p : string) (i : nat) :
  occurs_at (String c s) p (S i) <-> occurs_at s p i.
Proof.
  split.
  - intros (a & b & E & Ha). destruct a as [|x a]; [discriminate|].
    simpl in E, Ha. injection E as _ E. exists a, b; split; [exact E | lia].
  - intros (a & b & -> & Ha). exists (String c a), b; simpl; split; [reflexivity | lia].
Qed.

Lemma occurs_at_bound (s p : string) (i : nat) :
  occurs_at s p i -> i + String.length p <= String.length s.
Proof.
  intros (a & b & -> & <-). rewrite !length_app. lia.
Qed.

Lemma occurs_at_drop (s p : string) (i : nat) :
  occurs_at s p i ->
  s = take i s ++ p ++ drop (String.length p) (drop i s).
Proof.
  intros (a & b & -> & <-).
  rewrite drop_app, drop_app.
  rewrite take_take_app by lia. rewrite take_all by lia. reflexivity.
Qed.

(** [find_at] answers the offset of the first occurrence. *)
Lemma find_at_some (s p : string) (pos i : nat) :
  find_at s p pos = Some i ->
  exists k, i = pos + k /\ first_occurrence s p k.
Proof.
  revert pos; induction s as [|c s IH]; intros pos; simpl.
  - destruct (starts_with "" p) eqn:E; [|discriminate].
    intros [= <-]. exists 0; split; [lia|]. split.
    + now apply occurs_at_zero.
    + intros j Hj; lia.
  - destruct (starts_with (String c s) p) eqn:E.
    + intros [= <-]. exists 0; split; [lia|]. split.
      * now apply occurs_at_zero.
      * intros j Hj; lia.
    + intros H. apply IH in H as (k & -> & Hocc & Hmin).
      exists (S k); split; [lia|]. split.
      * now apply occurs_at_succ.
      * intros [|j] Hj Hc.
        -- apply occurs_at_zero in Hc. congruence.
        -- apply occurs_at_succ in Hc. apply (Hmin j); [lia | exact Hc].
Qed.

Lemma find_at_none (s p : string) (pos : nat) :
  find_at s p pos = None -> forall i, ~ occurs_at s p i.
Proof.
  revert pos; induction s as [|c s IH]; intros pos; simpl.
  - destruct (starts_with "" p) eqn:E; [discriminate|].
    intros _ i Hc. pose proof (occurs_at_bound _ _ _ Hc) as Hb. simpl in Hb.
    assert (i = 0) by lia; subst i. apply occurs_at_zero in Hc. congruence.
  - destruct (starts_with (String c s) p) eqn:E; [discriminate|].
    intros H [|i] Hc.
    + apply occurs_at_zero in Hc. congruence.
    + apply occurs_at_succ in Hc. exact (IH _ H i Hc).
Qed.

Lemma first_occurrence_unique (s p : string) (i j : nat) :
  first_occurrence s p i -> first_occurrence s p j -> i = j.
Proof.
  intros [Hi Mi] [Hj Mj].
  destruct (Nat.lt_trichotomy i j) as [L | [E | L]]; [|exact E|].
  - exfalso; exact (Mj i L Hi).
  - exfalso; exact (Mi j L Hj).
Qed.

(** [find] is [Some] of the first occurrence exactly. *)
Lemma find_first (s p : string) (i : nat) :
  find s p = Some i <-> first_occurrence s p i.
Proof.
  unfold find; split.
  - intros H. apply find_at_some in H as (k & -> & Hk). exact Hk.
  - intros Hi. destruct (find_at s p 0) as [k|] eqn:E.
    + apply find_at_some in E as (k' & -> & Hk). simpl.
      f_equal. eapply first_occurrence_unique; eauto.
    + exfalso. destruct Hi as [Hi _]. exact (find_at_none _ _ _ E i Hi).
Qed.

Lemma find_none (s p : string) : find s p = None <-> ~ contains s p.
Proof.
  split.
  - intros H [i Hi]. exact (find_at_none _ _ _ H i Hi).
  - intros H. destruct (find s p) as [i|] eqn:E; [|reflexivity].
    exfalso; apply H. exists i. apply find_first in E. exact (proj1 E).
Qed.

(** Where [p] occurs there is a first occurrence, not later. *)
Lemma contains_first (s p : string) (j : nat) :
  occurs_at s p j -> exists i, i <= j /\ find s p = Some i.
Proof.
  intros Hj. destruct (find s p) as [i|] eqn:E.
  - exists i; split; [|reflexivity].
    apply find_first in E as [_ Hmin].
    destruct (Nat.le_gt_cases i j) as [L|L]; [exact L|].
    exfalso; exact (Hmin j L Hj).
  - exfalso. apply find_none in E. apply E. now exists j.
Qed.

(** At the offset [find] answers, [substr] does not throw. *)
Lemma substr_at_occurrence (s p : string) (i n : nat) :
  occurs_at s p i -> substr s i n = Ok (take n (drop i s)).
Proof.
  intros H. apply occurs_at_bound in H. unfold substr.
  destruct (Nat.leb_spec i (String.length s)); [reflexivity | lia].
Qed.

(** The matcher, once the file is read. *)
Lemma search_read (fs : FileSystem) (file p prior text : string) :
  read_file fs file = Some (Contents text) ->
  search_for_phone_ssid fs file p prior =
  match find text p with
  | Some i => Ok (true, take (String.length p + 2) (drop i text))
  | None => Ok (false, "")
  end.
Proof.
  intros R. unfold search_for_phone_ssid. rewrite R.
  destruct (find text p) as [i|] eqn:E; [|reflexivity].
  apply find_first in E as [Hi _].
  unfold strlen. now rewrite (substr_at_occurrence _ _ _ _ Hi).
Qed.

End StringFacts.

(** ** The SSID matcher *)

(** Scenario A of the specification, with the prefix as a parameter. *)
Example scenario_a :
  search_for_phone_ssid
    [("scan.txt", Contents ("SSID: PhoneArtifact17" ++ newline ++ "SSID: HomeNet"))]
    "scan.txt" "PhoneArtifact" "stale"
  = Ok (true, "PhoneArtifact17").
Proof. reflexivity. Qed.

(** Scenario B of the specification. *)
Example scenario_b :
  search_for_phone_ssid
    [("scan.txt", Contents ("SSID: HomeNet" ++ newline ++ "SSID: OfficeNet"))]
    "scan.txt" "PhoneArtifact" "stale"
  = Ok (false, "").
Proof. reflexivity. Qed.

(** Scenario C of the specification: the prefix at the very end of the text
    is a match, returned short. *)
Example scenario_c :
  search_for_phone_ssid [("scan.txt", Contents "...PhoneArtifact")]
    "scan.txt" "PhoneArtifact" "stale"
  = Ok (true, "PhoneArtifact").
Proof. reflexivity. Qed.

(** One character after the prefix: a match of [strlen prefix + 1]. *)
Example one_trailing_character :
  search_for_phone_ssid [("scan.txt", Contents "SSID: PhoneArtifact7")]
    "scan.txt" "PhoneArtifact" "stale"
  = Ok (true, "PhoneArtifact7").
Proof. reflexivity. Qed.

(** The file cannot be opened: no match, and the output is cleared. *)
Example file_not_opened :
  search_for_phone_ssid [] "scan.txt" "PhoneArtifact" "stale" = Ok (false, "").
Proof. reflexivity. Qed.

(** A file that opens and cannot be read: the matcher is left by the
    exception of the read. *)
Example file_not_read :
  search_for_phone_ssid [("scan.txt", Unreadable)] "scan.txt" "PhoneArtifact" "stale"
  = IosFailure.
Proof. reflexivity. Qed.

Lemma search_unreadable (fs : FileSystem) (file p prior : string) :
  read_file fs file = Some Unreadable ->
  search_for_phone_ssid fs file p prior = IosFailure.
Proof. intros R. unfold search_for_phone_ssid. now rewrite R. Qed.

Lemma search_not_opened (fs : FileSystem) (file p prior : string) :
  read_file fs file = None ->
  search_for_phone_ssid fs file p prior = Ok (false, "").
Proof. intros R. unfold search_for_phone_ssid. now rewrite R. Qed.

(** Unless the read fails, the matcher returns: the exception of [substr]
    never leaves it. *)
Lemma search_returns (fs : FileSystem) (file p prior : string) :
  read_file fs file <> Some Unreadable ->
  exists found out, search_for_phone_ssid fs file p prior = Ok (found, out).
Proof.
  intros N. destruct (read_file fs file) as [[text|]|] eqn:R.
  - rewrite (search_read _ _ _ _ _ R). destruct (find text p); eauto.
  - now contradiction N.
  - rewrite (search_not_opened _ _ _ _ R). eauto.
Qed.

(** C1: when the file holds a scan text in which the prefix occurs with at
    least two characters after it, the matcher returns [true], and the
    output is a piece [out] of the text, [text = a ++ out ++ b], that begins
    at the first occurrence of the prefix and is [strlen prefix + 2]
    characters long. *)
Theorem search_full_match (fs : FileSystem) (file p prior text : string) (j : nat) :
  read_file fs file = Some (Contents text) ->
  occurs_with_tail text p 2 j ->
  exists a out b,
    text = a ++ out ++ b /\
    first_occurrence text p (String.length a) /\
    String.length out = String.length p + 2 /\
    search_for_phone_ssid fs file p prior = Ok (true, out).
Proof.
  intros R (a0 & b0 & E & La & Lb).
  assert (Hj : occurs_at text p j) by (exists a0, b0; auto).
  assert (Hlen : j + String.length p + 2 <= String.length text).
  { rewrite E, !length_app. lia. }
  destruct (contains_first _ _ _ Hj) as (i & Hij & F).
  rewrite (search_read _ _ _ _ _ R), F.
  pose proof (proj1 (find_first _ _ _) F) as Hfirst.
  set (n := String.length p + 2).
  exists (take i text), (take n (drop i text)), (drop n (drop i text)).
  assert (Li : String.length (take i text) = i).
  { rewrite length_take. lia. }
  repeat split.
  - now rewrite take_drop, take_drop.
  - rewrite Li. exact (proj1 Hfirst).
  - rewrite Li. exact (proj2 Hfirst).
  - rewrite length_take, length_drop. unfold n. lia.
Qed.

Lemma search_full_match_witness :
  exists a out b,
    "SSID: Pixel' hector42 " = a ++ out ++ b /\
    first_occurrence "SSID: Pixel' hector42 " phone_artifact_ssid (String.length a) /\
    String.length out = String.length phone_artifact_ssid + 2 /\
    search_for_phone_ssid [(ssid_filename, Contents "SSID: Pixel' hector42 ")]
      ssid_filename phone_artifact_ssid "old" = Ok (true, out).
Proof.
  apply (search_full_match _ _ _ _ _ 6).
  - reflexivity.
  - exists "SSID: ", "42 ". repeat split. simpl; lia.
Defined.

(** C2 as stated fails: with the prefix at the very end of the file the
    matcher returns [true] and an output as long as the prefix only. *)
Lemma match_length_counterexample :
  ~ (forall fs file p prior out,
        search_for_phone_ssid fs file p prior = Ok (true, out) ->
        String.length out = String.length p + 2).
Proof.
  intros H.
  specialize (H [(ssid_filename, Contents "SSID: Pixel' hector")] ssid_filename
                phone_artifact_ssid "" "Pixel' hector" eq_refl).
  discriminate H.
Qed.

(** C2, amended: when the matcher returns [true], the file was read, and
    its text is [a ++ out ++ b] for the output [out], where [a] ends at the
    first occurrence of the prefix: the output is the piece of the text that
    begins there.  Its length is that of what the text holds from there on,
    at most [strlen prefix + 2]: between [strlen prefix] and
    [strlen prefix + 2] characters. *)
Theorem match_length (fs : FileSystem) (file p prior out : string) :
  search_for_phone_ssid fs file p prior = Ok (true, out) ->
  exists text a b,
    read_file fs file = Some (Contents text) /\
    text = a ++ out ++ b /\
    first_occurrence text p (String.length a) /\
    String.length out
      = Nat.min (String.length p + 2) (String.length text - String.length a) /\
    String.length p <= String.length out <= String.length p + 2.
Proof.
  intros H. destruct (read_file fs file) as [[text|]|] eqn:R.
  - rewrite (search_read _ _ _ _ _ R) in H.
    destruct (find text p) as [i|] eqn:F; [|discriminate].
    injection H as <-. apply find_first in F.
    pose proof (occurs_at_bound _ _ _ (proj1 F)) as B.
    assert (Li : String.length (take i text) = i) by (rewrite length_take; lia).
    exists text, (take i text), (drop (String.length p + 2) (drop i text)).
    rewrite Li, length_take, length_drop.
    split; [reflexivity|]. split; [now rewrite !take_drop|].
    split; [exact F|]. split; [reflexivity | lia].
  - rewrite (search_unreadable _ _ _ _ R) in H. discriminate.
  - rewrite (search_not_opened _ _ _ _ R) in H. discriminate.
Qed.

Lemma match_length_witness :
  exists text a b,
    read_file [(ssid_filename, Contents "SSID: Pixel' hector7")] ssid_filename
      = Some (Contents text) /\
    text = a ++ "Pixel' hector7" ++ b /\
    first_occurrence text phone_artifact_ssid (String.length a) /\
    String.length "Pixel' hector7"
      = Nat.min (String.length phone_artifact_ssid + 2)
          (String.length text - String.length a) /\
    String.length phone_artifact_ssid <= String.length "Pixel' hector7"
      <= String.length phone_artifact_ssid + 2.
Proof.
  apply (match_length [(ssid_filename, Contents "SSID: Pixel' hector7")] ssid_filename
           phone_artifact_ssid "old" "Pixel' hector7").
  reflexivity.
Defined.

(** C7: when the file holds a scan text that does not contain the prefix,
    the matcher returns [false] and the output is the empty string, whatever
    it held at the call. *)
Theorem search_no_match (fs : FileSystem) (file p prior text : string) :
  read_file fs file = Some (Contents text) ->
  ~ contains text p ->
  search_for_phone_ssid fs file p prior = Ok (false, "").
Proof.
  intros R H. rewrite (search_read _ _ _ _ _ R).
  apply find_none in H. now rewrite H.
Qed.

Lemma search_no_match_witness :
  search_for_phone_ssid
    [(ssid_filename, Contents ("SSID: HomeNet" ++ newline ++ "SSID: OfficeNet"))]
    ssid_filename phone_artifact_ssid "Pixel' hector42" = Ok (false, "").
Proof.
  apply (search_no_match _ _ _ _ ("SSID: HomeNet" ++ newline ++ "SSID: OfficeNet")).
  - reflexivity.
  - apply find_none. reflexivity.
Defined.

(** Occurrences that end within the first [n] characters are those of the
    first [n] characters. *)
Lemma occurs_at_take (s p : string) (i n : nat) :
  i + String.length p <= n ->
  occurs_at (take n s) p i <-> occurs_at s p i.
Proof.
  intros Hn; split.
  - intros (a & b & E & La). exists a, (b ++ drop n s); split; [|exact La].
    rewrite <- (take_drop n s) at 1. rewrite E. now rewrite !sapp_assoc.
  - intros (a & b & -> & <-).
    exists a, (take (n - String.length a - String.length p) b); split; [|reflexivity].
    replace n with
      (String.length a + (String.length p + (n - String.length a - String.length p)))
      at 1 by lia.
    now rewrite !take_app.
Qed.

Lemma take_drop_swap (s : string) (i m : nat) :
  take m (drop i s) = drop i (take (i + m) s).
Proof.
  revert s; induction i as [|i IH]; intros s; simpl.
  - now destruct (take m s).
  - destruct s as [|c s]; simpl; [now destruct m | apply IH].
Qed.

(** C8: the matcher extracts at the offset [i] of the first occurrence of
    the prefix, and nothing after the [strlen prefix + 2] characters that
    begin there has a part in the result: a file that agrees with this one
    up to offset [i + strlen prefix + 2] gives the same result, whatever
    occurrences of the prefix follow. *)
Theorem search_first_occurrence_only
    (fs : FileSystem) (file p prior text : string) (i : nat) :
  read_file fs file = Some (Contents text) ->
  first_occurrence text p i ->
  search_for_phone_ssid fs file p prior
    = Ok (true, take (String.length p + 2) (drop i text)) /\
  forall fs' file' prior' text',
    read_file fs' file' = Some (Contents text') ->
    take (i + (String.length p + 2)) text' = take (i + (String.length p + 2)) text ->
    search_for_phone_ssid fs' file' p prior'
      = search_for_phone_ssid fs file p prior.
Proof.
  intros R Hi.
  pose proof (proj2 (find_first _ _ _) Hi) as F.
  rewrite (search_read _ _ _ _ _ R), F. split; [reflexivity|].
  intros fs' file' prior' text' R' E.
  set (n := i + (String.length p + 2)) in *.
  assert (Hi' : first_occurrence text' p i).
  { destruct Hi as [Ho Hm]. split.
    - apply (occurs_at_take _ _ _ n); [unfold n; lia|].
      rewrite E. apply occurs_at_take; [unfold n; lia | exact Ho].
    - intros j Hj Hc. apply (Hm j Hj).
      apply (occurs_at_take _ _ _ n) in Hc; [|unfold n; lia].
      rewrite E in Hc. apply occurs_at_take in Hc; [exact Hc | unfold n; lia]. }
  apply find_first in Hi'.
  rewrite (search_read _ _ _ _ _ R'), Hi'.
  rewrite !take_drop_swap. fold n. now rewrite E.
Qed.

Lemma search_first_occurrence_only_witness :
  search_for_phone_ssid
    [(ssid_filename, Contents "SSID: Pixel' hector17 SSID: Pixel' hector42")]
    ssid_filename phone_artifact_ssid "old"
    = Ok (true, "Pixel' hector17") /\
  search_for_phone_ssid
    [("other.txt", Contents "SSID: Pixel' hector17 SSID: HomeNet")]
    "other.txt" phone_artifact_ssid ""
    = search_for_phone_ssid
        [(ssid_filename, Contents "SSID: Pixel' hector17 SSID: Pixel' hector42")]
        ssid_filename phone_artifact_ssid "old".
Proof.
  destruct (search_first_occurrence_only
              [(ssid_filename, Contents "SSID: Pixel' hector17 SSID: Pixel' hector42")]
              ssid_filename phone_artifact_ssid "old"
              "SSID: Pixel' hector17 SSID: Pixel' hector42" 6)
    as [H1 H2].
  - reflexivity.
  - apply find_first. reflexivity.
  - split; [exact H1|].
    apply (H2 [("other.txt", Contents "SSID: Pixel' hector17 SSID: HomeNet")] "other.txt" ""
              "SSID: Pixel' hector17 SSID: HomeNet"); reflexivity.
Defined.

(** C9 as stated fails: the matcher reads a file, so that with the same
    three arguments its result changes with what the file holds. *)
Lemma search_pure_counterexample :
  ~ (forall fs1 fs2 file p prior,
        search_for_phone_ssid fs1 file p prior
        = search_for_phone_ssid fs2 file p prior).
Proof.
  intros H.
  specialize (H [(ssid_filename, Contents "SSID: Pixel' hector42")]
                [(ssid_filename, Contents "SSID: HomeNet")]
                ssid_filename phone_artifact_ssid "").
  discriminate H.
Qed.

(** C9, amended: the matcher reads the file named by its first argument and
    changes no file; its result is decided by whether the file opens, what
    it holds and the prefix: two calls that read the same contents with the
    same prefix return the same flag and the same output, whatever the file
    is called and whatever the output held at the call. *)
Theorem search_deterministic
    (fs1 fs2 : FileSystem) (file1 file2 p prior1 prior2 : string) :
  read_file fs1 file1 = read_file fs2 file2 ->
  search_for_phone_ssid fs1 file1 p prior1
  = search_for_phone_ssid fs2 file2 p prior2.
Proof.
  intros E. unfold search_for_phone_ssid. now rewrite E.
Qed.

Lemma search_deterministic_witness :
  search_for_phone_ssid [("a.txt", Contents "SSID: Pixel' hector42")]
    "a.txt" phone_artifact_ssid "old"
  = search_for_phone_ssid
      [("b.txt", Contents "SSID: Pixel' hector42"); ("a.txt", Contents "SSID: HomeNet")]
      "b.txt" phone_artifact_ssid "".
Proof.
  apply search_deterministic. reflexivity.
Defined.

(** C10: when the file holds a text in which the prefix occurs with fewer
    than two characters after it, the matcher returns [true] and an output
    that begins with the prefix; when that occurrence is the first one, the
    output is the prefix and the zero or one characters after it. *)
Theorem search_short_match (fs : FileSystem) (file p prior a b : string) :
  read_file fs file = Some (Contents (a ++ p ++ b)) ->
  String.length b < 2 ->
  exists out,
    search_for_phone_ssid fs file p prior = Ok (true, out) /\
    starts_with out p = true /\
    ((forall j, j < String.length a -> ~ occurs_at (a ++ p ++ b) p j) ->
     out = p ++ b).
Proof.
  intros R Lb.
  assert (Ha : occurs_at (a ++ p ++ b) p (String.length a)) by (exists a, b; auto).
  destruct (contains_first _ _ _ Ha) as (i & Hi & F).
  rewrite (search_read _ _ _ _ _ R), F.
  eexists; split; [reflexivity|].
  pose proof (proj1 (find_first _ _ _) F) as Hfirst.
  split.
  - rewrite (occurs_at_drop _ _ _ (proj1 Hfirst)) at 1.
    assert (Li : String.length (take i (a ++ p ++ b)) = i).
    { rewrite length_take. pose proof (occurs_at_bound _ _ _ (proj1 Hfirst)). lia. }
    rewrite <- Li at 1. rewrite drop_app, take_app. apply starts_with_app.
  - intros Hmin.
    assert (i = String.length a) as ->.
    { apply (first_occurrence_unique (a ++ p ++ b) p); [exact Hfirst|].
      split; assumption. }
    rewrite drop_app, take_app. f_equal. apply take_all. lia.
Qed.

Lemma search_short_match_witness :
  exists out,
    search_for_phone_ssid [(ssid_filename, Contents "SSID: Pixel' hector")]
      ssid_filename phone_artifact_ssid "old" = Ok (true, out) /\
    starts_with out phone_artifact_ssid = true /\
    ((forall j, j < String.length "SSID: " ->
        ~ occurs_at ("SSID: " ++ phone_artifact_ssid ++ "") phone_artifact_ssid j) ->
     out = phone_artifact_ssid ++ "").
Proof.
  apply (search_short_match _ _ _ _ "SSID: " "").
  - reflexivity.
  - simpl; lia.
Defined.

(** ** Interface selection *)

(** [selectable], spelled out. *)
Lemma selectable_spec (node : ifaddrs) :
  selectable node = true <->
  exists addr,
    ifa_addr node = Some addr /\
    (sa_family addr = AF_INET \/ sa_family addr = AF_INET6) /\
    String.get 0 (ifa_name node) = Some "w"%char /\
    String.get 2 (ifa_name node) = Some "x"%char.
Proof.
  unfold selectable, wireless_name, char_at. split.
  - destruct (ifa_addr node) as [addr|]; [|discriminate].
    intros H. apply andb_true_iff in H as [Hf Hn].
    apply andb_true_iff in Hn as [H0 H2].
    exists addr. split; [reflexivity|]. split.
    + destruct (sa_family addr); simpl in Hf; auto; discriminate.
    + destruct (String.get 0 (ifa_name node)) as [c0|];
        destruct (String.get 2 (ifa_name node)) as [c2|];
        apply Ascii.eqb_eq in H0; apply Ascii.eqb_eq in H2;
        try discriminate; subst; auto.
  - intros (addr & -> & Hf & -> & ->).
    destruct Hf as [-> | ->]; reflexivity.
Qed.

Lemma no_address_not_selectable (name : string) :
  selectable {| ifa_name := name; ifa_addr := None |} = false.
Proof. reflexivity. Qed.

Lemma walk_not_selectable (node : ifaddrs) (ifa_next : list ifaddrs) (prior : string) :
  selectable node = false ->
  walk_ifaddrs (node :: ifa_next) prior = walk_ifaddrs ifa_next prior.
Proof.
  unfold selectable; simpl. destruct (ifa_addr node) as [addr|]; [|reflexivity].
  destruct (is_inet (sa_family addr)); [|reflexivity].
  simpl. now intros ->.
Qed.

Lemma walk_skips (before rest : list ifaddrs) (prior : string) :
  (forall n, In n before -> selectable n = false) ->
  walk_ifaddrs (before ++ rest) prior = walk_ifaddrs rest prior.
Proof.
  induction before as [|n before IH]; intros H; [reflexivity|].
  rewrite <- app_comm_cons, walk_not_selectable by (apply H; now left).
  apply IH. intros m Hm. apply H. now right.
Qed.

Lemma walk_selects (node : ifaddrs) (ifa_next : list ifaddrs) (prior : string) :
  selectable node = true ->
  walk_ifaddrs (node :: ifa_next) prior
  = (node :: ifa_next, ifa_name node,
     [Stderr ("selecting this interface: " ++ ifa_name node ++ newline)]).
Proof.
  unfold selectable; simpl. destruct (ifa_addr node) as [addr|]; [|discriminate].
  intros H. apply andb_true_iff in H as [-> ->]. reflexivity.
Qed.

(** C3: when the first selectable node of the enumeration is [node] (after
    any number of nodes that have no address, or an address of another
    family, or a name without [w] first and [x] third),
    [get_wireless_interface_name] returns 0 and the output is the name of
    [node], whatever follows it in the enumeration. *)
Theorem selects_first_wireless
    (before after : list ifaddrs) (node : ifaddrs) (prior : string) :
  (forall n, In n before -> selectable n = false) ->
  selectable node = true ->
  get_wireless_interface_name (GetifaddrsList (before ++ node :: after)) prior
  = (0%Z, ifa_name node,
     [Stderr ("selecting this interface: " ++ ifa_name node ++ newline)]).
Proof.
  intros Hb Hn. unfold get_wireless_interface_name.
  now rewrite walk_skips, walk_selects.
Qed.

Lemma selects_first_wireless_witness :
  get_wireless_interface_name
    (GetifaddrsList
       ([ {| ifa_name := "lo"; ifa_addr := Some {| sa_family := AF_INET |} |};
          {| ifa_name := "wlx00c0ca"; ifa_addr := None |};
          {| ifa_name := "wlx00c0ca"; ifa_addr := Some {| sa_family := AF_PACKET |} |};
          {| ifa_name := "enp3s0"; ifa_addr := Some {| sa_family := AF_INET |} |} ]
        ++ {| ifa_name := "wlx00c0ca"; ifa_addr := Some {| sa_family := AF_INET6 |} |}
        :: [ {| ifa_name := "wlx502b73"; ifa_addr := Some {| sa_family := AF_INET |} |} ]))
    "unset"
  = (0%Z, "wlx00c0ca",
     [Stderr ("selecting this interface: " ++ "wlx00c0ca" ++ newline)]).
Proof.
  apply (selects_first_wireless
           [ {| ifa_name := "lo"; ifa_addr := Some {| sa_family := AF_INET |} |};
             {| ifa_name := "wlx00c0ca"; ifa_addr := None |};
             {| ifa_name := "wlx00c0ca"; ifa_addr := Some {| sa_family := AF_PACKET |} |};
             {| ifa_name := "enp3s0"; ifa_addr := Some {| sa_family := AF_INET |} |} ]
           _ {| ifa_name := "wlx00c0ca"; ifa_addr := Some {| sa_family := AF_INET6 |} |}).
  - intros n [<- | [<- | [<- | [<- | []]]]]; reflexivity.
  - reflexivity.
Defined.

(** C4: when no node of the enumeration is selectable (the empty
    enumeration too), [get_wireless_interface_name] returns -1 and leaves
    its output as it was, and [main] returns 1 having written two lines to
    stderr and nothing else: no command is run and nothing is published,
    however long [ros::ok()] would hold. *)
Theorem no_wireless_interface_is_fatal
    (ifaddr : list ifaddrs) (prior : string) (ticks : list Shell) (fs : FileSystem) :
  (forall n, In n ifaddr -> selectable n = false) ->
  get_wireless_interface_name (GetifaddrsList ifaddr) prior
  = ((-1)%Z, prior, [Stderr ("ifa NULL, no interface selected" ++ newline)]) /\
  main (GetifaddrsList ifaddr) ticks fs
  = (Some 1%Z,
     [Stderr ("ifa NULL, no interface selected" ++ newline);
      Stderr ("did not read wireless interface name, terminating" ++ newline)],
     fs).
Proof.
  intros H.
  assert (W : forall s, walk_ifaddrs ifaddr s = ([], s, [])).
  { intros s. rewrite <- (app_nil_r ifaddr). now rewrite walk_skips. }
  unfold main, get_wireless_interface_name. rewrite !W. split; reflexivity.
Qed.

Lemma no_wireless_interface_is_fatal_witness :
  get_wireless_interface_name
    (GetifaddrsList
       [ {| ifa_name := "lo"; ifa_addr := Some {| sa_family := AF_INET |} |};
         {| ifa_name := "wlan0"; ifa_addr := Some {| sa_family := AF_INET |} |};
         {| ifa_name := "enx00e04c"; ifa_addr := Some {| sa_family := AF_INET6 |} |} ])
    "unset"
  = ((-1)%Z, "unset", [Stderr ("ifa NULL, no interface selected" ++ newline)]) /\
  main
    (GetifaddrsList
       [ {| ifa_name := "lo"; ifa_addr := Some {| sa_family := AF_INET |} |};
         {| ifa_name := "wlan0"; ifa_addr := Some {| sa_family := AF_INET |} |};
         {| ifa_name := "enx00e04c"; ifa_addr := Some {| sa_family := AF_INET6 |} |} ])
    [system_writes ssid_filename "SSID: Pixel' hector42"] []
  = (Some 1%Z,
     [Stderr ("ifa NULL, no interface selected" ++ newline);
      Stderr ("did not read wireless interface name, terminating" ++ newline)],
     []).
Proof.
  apply no_wireless_interface_is_fatal.
  intros n [<- | [<- | [<- | []]]]; reflexivity.
Defined.

(** A failure of [getifaddrs] itself ends [main] the same way. *)
Lemma getifaddrs_failure_is_fatal (msg : string) (ticks : list Shell) (fs : FileSystem) :
  main (GetifaddrsFailed msg) ticks fs
  = (Some 1%Z,
     [Stderr ("getifaddrs failure, errno: " ++ msg ++ newline);
      Stderr ("did not read wireless interface name, terminating" ++ newline)],
     fs).
Proof. reflexivity. Qed.

(** ** The scan invoker *)

(** C6 as stated fails: no observation of what [ssid_network_scan] hands
    back to its caller tells a [system] that failed from one that did not. *)
Lemma scan_failure_counterexample :
  ~ (exists failed : list Event * FileSystem -> bool,
        forall (system : Shell) fs ifname file,
          failed (ssid_network_scan system fs ifname file) = true <->
          fst (system (scan_command ifname file) fs) <> 0%Z).
Proof.
  intros [failed H].
  pose proof (H system_not_started [] "wlx00c0ca" ssid_filename) as Hbad.
  pose proof (H (system_status 0) [] "wlx00c0ca" ssid_filename) as Hgood.
  change (ssid_network_scan (system_status 0) [] "wlx00c0ca" ssid_filename)
    with (ssid_network_scan system_not_started [] "wlx00c0ca" ssid_filename)
    in Hgood.
  apply Hgood; [|reflexivity].
  apply Hbad. discriminate.
Qed.

(** C6, amended: [ssid_network_scan] runs the one command
    [iwlist <ifname> scan | grep SSID > <file>] and returns nothing; the
    status of [system] is dropped, so that two runs whose commands leave the
    same files are the same to the caller, whatever their statuses. *)
Theorem scan_status_discarded
    (system1 system2 : Shell) (fs : FileSystem) (ifname file : string) :
  snd (system1 (scan_command ifname file) fs)
  = snd (system2 (scan_command ifname file) fs) ->
  ssid_network_scan system1 fs ifname file
  = ssid_network_scan system2 fs ifname file /\
  ssid_network_scan system1 fs ifname file
  = ([System ("iwlist " ++ ifname ++ " scan | grep SSID > " ++ file)],
     snd (system1 (scan_command ifname file) fs)).
Proof.
  unfold ssid_network_scan. intros E.
  destruct (system1 (scan_command ifname file) fs) as [st1 fs1].
  destruct (system2 (scan_command ifname file) fs) as [st2 fs2].
  simpl in E. subst fs2. split; reflexivity.
Qed.

Lemma scan_status_discarded_witness :
  ssid_network_scan system_not_started [(ssid_filename, Contents "SSID: HomeNet")]
    "wlx00c0ca" ssid_filename
  = ssid_network_scan (system_status 0) [(ssid_filename, Contents "SSID: HomeNet")]
      "wlx00c0ca" ssid_filename /\
  ssid_network_scan system_not_started [(ssid_filename, Contents "SSID: HomeNet")]
    "wlx00c0ca" ssid_filename
  = ([System ("iwlist " ++ "wlx00c0ca" ++ " scan | grep SSID > " ++ ssid_filename)],
     snd (system_not_started (scan_command "wlx00c0ca" ssid_filename)
            [(ssid_filename, Contents "SSID: HomeNet")])).
Proof.
  apply scan_status_discarded. reflexivity.
Defined.

(** ** The poll/report loop *)

Lemma published_app (l1 l2 : list Event) :
  published (l1 ++ l2) = (published l1 ++ published l2)%list.
Proof.
  induction l1 as [|e l1 IH]; simpl; [reflexivity|].
  destruct e; simpl; now rewrite IH.
Qed.

(** C5 as stated fails: when [system] cannot start the scan, the file of an
    earlier scan is still there, the matcher reads it, and the pass
    publishes the network found then. *)
Lemma report_counterexample :
  ~ (forall (system : Shell) fs wifiname prior,
        fst (system (scan_command (c_str wifiname) ssid_filename) fs) = (-1)%Z ->
        published (fst (fst (cycle system fs wifiname prior))) = [""]).
Proof.
  intros H.
  specialize (H system_not_started [(ssid_filename, Contents "SSID: Pixel' hector42")]
                "wlx00c0ca" "" eq_refl).
  discriminate H.
Qed.

(** The same in a run of [main]: the first scan finds the phone, the second
    cannot be started, and both passes publish the phone's network. *)
Example stale_report_run :
  let '(code, events, _) :=
    main (GetifaddrsList
            [ {| ifa_name := "wlx00c0ca"; ifa_addr := Some {| sa_family := AF_INET |} |} ])
         [system_writes ssid_filename "SSID: Pixel' hector42"; system_not_started]
         [] in
  code = Some 0%Z /\ published events = ["Pixel' hector42"; "Pixel' hector42"].
Proof. split; reflexivity. Qed.

Lemma scan_readable_iff (fs : FileSystem) :
  scan_readable fs = true <-> read_file fs ssid_filename <> Some Unreadable.
Proof.
  unfold scan_readable.
  destruct (read_file fs ssid_filename) as [[text|]|]; split;
    try discriminate; try reflexivity; intros H; now contradiction H.
Qed.

(** C5, amended: every pass of the loop in which the scan output, as the
    scan command left it, cannot be opened or is read to its end publishes
    exactly one report, and the report is decided by the matcher alone,
    whatever the status of the scan: the matched network when the matcher
    returns [true], the empty string when it returns [false], which it does
    when the file cannot be opened. *)
Theorem cycle_publishes_one_report
    (system : Shell) (fs : FileSystem) (wifiname prior : string) :
  read_file (snd (system (scan_command (c_str wifiname) ssid_filename) fs))
    ssid_filename <> Some Unreadable ->
  exists found out,
    search_for_phone_ssid
      (snd (system (scan_command (c_str wifiname) ssid_filename) fs))
      ssid_filename phone_artifact_ssid prior = Ok (found, out) /\
    published (fst (fst (cycle system fs wifiname prior)))
      = [if found then out else ""] /\
    snd (cycle system fs wifiname prior) = Ok out /\
    (read_file (snd (system (scan_command (c_str wifiname) ssid_filename) fs))
       ssid_filename = None -> found = false).
Proof.
  unfold cycle, ssid_network_scan.
  destruct (system (scan_command (c_str wifiname) ssid_filename) fs) as [st fs'].
  simpl. intros N.
  destruct (search_returns fs' ssid_filename phone_artifact_ssid prior N)
    as (found & out & E).
  exists found, out. rewrite E. split; [reflexivity|].
  split; [now destruct found|]. split; [now destruct found|].
  intros R. rewrite (search_not_opened _ _ _ _ R) in E. congruence.
Qed.

Lemma cycle_publishes_one_report_witness :
  exists found out,
    search_for_phone_ssid
      (snd (system_writes ssid_filename "SSID: Pixel' hector42"
              (scan_command (c_str "wlx00c0ca") ssid_filename) []))
      ssid_filename phone_artifact_ssid "old" = Ok (found, out) /\
    published
      (fst (fst (cycle (system_writes ssid_filename "SSID: Pixel' hector42")
                   [] "wlx00c0ca" "old")))
      = [if found then out else ""] /\
    snd (cycle (system_writes ssid_filename "SSID: Pixel' hector42")
           [] "wlx00c0ca" "old") = Ok out /\
    (read_file
       (snd (system_writes ssid_filename "SSID: Pixel' hector42"
               (scan_command (c_str "wlx00c0ca") ssid_filename) []))
       ssid_filename = None -> found = false).
Proof.
  apply (cycle_publishes_one_report
           (system_writes ssid_filename "SSID: Pixel' hector42") [] "wlx00c0ca" "old").
  simpl. discriminate.
Defined.

(** The report of a pass whose scan output can be read is the Report of the
    specification for the files the scan command left. *)
Lemma cycle_report_spec (system : Shell) (fs : FileSystem) (wifiname prior : string) :
  scan_readable (snd (system (scan_command (c_str wifiname) ssid_filename) fs)) = true ->
  published (fst (fst (cycle system fs wifiname prior)))
  = [spec_report (snd (system (scan_command (c_str wifiname) ssid_filename) fs))].
Proof.
  unfold cycle, ssid_network_scan, spec_report, scan_readable.
  destruct (system (scan_command (c_str wifiname) ssid_filename) fs) as [st fs'].
  simpl. destruct (read_file fs' ssid_filename) as [[text|]|] eqn:R.
  - intros _. rewrite (search_read _ _ _ _ _ R).
    now destruct (find text phone_artifact_ssid).
  - discriminate.
  - intros _. now rewrite (search_not_opened _ _ _ _ R).
Qed.

(** A pass whose scan output opens and cannot be read ends after the scan,
    by the exception of the read. *)
Lemma cycle_unreadable (system : Shell) (fs : FileSystem) (wifiname prior : string) :
  scan_readable (snd (system (scan_command (c_str wifiname) ssid_filename) fs)) = false ->
  cycle system fs wifiname prior
  = ([System (scan_command (c_str wifiname) ssid_filename)],
     snd (system (scan_command (c_str wifiname) ssid_filename) fs),
     IosFailure).
Proof.
  unfold cycle, ssid_network_scan, scan_readable.
  destruct (system (scan_command (c_str wifiname) ssid_filename) fs) as [st fs'].
  simpl. destruct (read_file fs' ssid_filename) as [[text|]|] eqn:R;
    try discriminate.
  intros _. now rewrite (search_unreadable _ _ _ _ R).
Qed.

(** A run of [main] of three passes: the phone is out of range, then seen,
    then the scan leaves no file that can be opened. *)
Example three_passes :
  main (GetifaddrsList
          [ {| ifa_name := "lo"; ifa_addr := Some {| sa_family := AF_INET |} |};
            {| ifa_name := "wlx00c0ca"; ifa_addr := Some {| sa_family := AF_INET |} |} ])
       [system_writes ssid_filename "SSID: HomeNet";
        system_writes ssid_filename "SSID: Pixel' hector42";
        (fun _ _ => (0%Z, []))]
       []
  = (Some 0%Z,
     [Stderr ("selecting this interface: wlx00c0ca" ++ newline);
      System "iwlist wlx00c0ca scan | grep SSID > ssid_list.txt";
      Stderr ("did not find Pixel' hector" ++ newline);
      RosInfo "";
      Publish "wifiAvailable" "";
      System "iwlist wlx00c0ca scan | grep SSID > ssid_list.txt";
      Stderr ("found Pixel' hector42" ++ newline);
      RosInfo "Pixel' hector42";
      Publish "wifiAvailable" "Pixel' hector42";
      System "iwlist wlx00c0ca scan | grep SSID > ssid_list.txt";
      Stderr ("did not find Pixel' hector" ++ newline);
      RosInfo "";
      Publish "wifiAvailable" ""],
     []).
Proof. reflexivity. Qed.

(** A run of [main] in which the scan output is a directory at the second
    pass: the pass runs its scan, the read throws, and the process ends
    there, without exit code and with the third pass not run. *)
Example aborted_run :
  main (GetifaddrsList
          [ {| ifa_name := "wlx00c0ca"; ifa_addr := Some {| sa_family := AF_INET |} |} ])
       [system_writes ssid_filename "SSID: Pixel' hector42";
        (fun _ _ => (1%Z, [(ssid_filename, Unreadable)]));
        system_writes ssid_filename "SSID: Pixel' hector42"]
       []
  = (None,
     [Stderr ("selecting this interface: wlx00c0ca" ++ newline);
      System "iwlist wlx00c0ca scan | grep SSID > ssid_list.txt";
      Stderr ("found Pixel' hector42" ++ newline);
      RosInfo "Pixel' hector42";
      Publish "wifiAvailable" "Pixel' hector42";
      System "iwlist wlx00c0ca scan | grep SSID > ssid_list.txt"],
     [(ssid_filename, Unreadable)]).
Proof. reflexivity. Qed.

(** ** Further properties of the matcher *)

Lemma find_empty_prefix (text : string) : find text "" = Some 0.
Proof. unfold find. now destruct text. Qed.

Lemma drop_zero (s : string) : drop 0 s = s.
Proof. now destruct s. Qed.

(** What the matcher cuts out at an occurrence begins with the prefix. *)
Lemma cut_starts_with (s p : string) (i k : nat) :
  occurs_at s p i ->
  starts_with (take (String.length p + k) (drop i s)) p = true.
Proof.
  intros (a & b & -> & <-).
  rewrite drop_app, take_app. apply starts_with_app.
Qed.

(** X1: one thing alone makes the matcher leave by an exception: a file
    that opens and cannot be read, by the [std::ios_base::failure] of the
    read.  The [substr] of line 162 is never called with an offset past the
    end, so no [std::out_of_range] leaves it.  In every other case the
    matcher returns, and what it returns is bounded: without a match the
    output is empty, and no output is longer than the prefix and two
    characters. *)
Theorem search_outcomes (fs : FileSystem) (file p prior : string) :
  (read_file fs file = Some Unreadable /\
   search_for_phone_ssid fs file p prior = IosFailure) \/
  (read_file fs file <> Some Unreadable /\
   exists found out,
     search_for_phone_ssid fs file p prior = Ok (found, out) /\
     (found = false -> out = "") /\
     String.length out <= String.length p + 2).
Proof.
  destruct (read_file fs file) as [[text|]|] eqn:R.
  - right. split; [discriminate|].
    rewrite (search_read _ _ _ _ _ R). destruct (find text p) as [i|].
    + eexists _, _. split; [reflexivity|]. split; [discriminate|].
      rewrite length_take. lia.
    + exists false, "". repeat split. simpl; lia.
  - left. split; [reflexivity|]. now apply search_unreadable.
  - right. split; [discriminate|].
    rewrite (search_not_opened _ _ _ _ R).
    exists false, "". repeat split. simpl; lia.
Qed.

(** X2: the matcher returns [true] exactly when the file can be opened and its
    contents contain the prefix. *)
Theorem search_true_iff (fs : FileSystem) (file p prior : string) :
  (exists out, search_for_phone_ssid fs file p prior = Ok (true, out)) <->
  (exists text, read_file fs file = Some (Contents text) /\ contains text p).
Proof.
  split.
  - intros [out H]. destruct (read_file fs file) as [[text|]|] eqn:R.
    + exists text. split; [reflexivity|].
      rewrite (search_read _ _ _ _ _ R) in H.
      destruct (find text p) as [i|] eqn:F; [|discriminate].
      exists i. apply find_first in F. exact (proj1 F).
    + rewrite (search_unreadable _ _ _ _ R) in H. discriminate.
    + rewrite (search_not_opened _ _ _ _ R) in H. discriminate.
  - intros (text & R & [j Hj]).
    destruct (contains_first _ _ _ Hj) as (i & _ & F).
    rewrite (search_read _ _ _ _ _ R), F. eauto.
Qed.

(** X3: every match is a piece of the file: when the matcher returns [true] the
    file reads [a ++ out ++ b] for the output [out], which begins with the
    prefix, and [a] ends where the prefix first occurs. *)
Theorem search_output_in_file (fs : FileSystem) (file p prior out : string) :
  search_for_phone_ssid fs file p prior = Ok (true, out) ->
  exists text a b,
    read_file fs file = Some (Contents text) /\
    text = a ++ out ++ b /\
    first_occurrence text p (String.length a) /\
    starts_with out p = true.
Proof.
  intros H. destruct (read_file fs file) as [[text|]|] eqn:R.
  - rewrite (search_read _ _ _ _ _ R) in H.
    destruct (find text p) as [i|] eqn:F; [|discriminate].
    injection H as <-. apply find_first in F.
    pose proof (occurs_at_bound _ _ _ (proj1 F)) as B.
    exists text, (take i text),
      (drop (String.length p + 2) (drop i text)).
    assert (Li : String.length (take i text) = i) by (rewrite length_take; lia).
    split; [reflexivity|]. split; [now rewrite !take_drop|].
    split; [now rewrite Li|].
    apply cut_starts_with. exact (proj1 F).
  - rewrite (search_unreadable _ _ _ _ R) in H. discriminate.
  - rewrite (search_not_opened _ _ _ _ R) in H. discriminate.
Qed.

Lemma search_output_in_file_witness :
  exists text a b,
    read_file [(ssid_filename, Contents "SSID: Pixel' hector7")] ssid_filename = Some (Contents text) /\
    text = a ++ "Pixel' hector7" ++ b /\
    first_occurrence text phone_artifact_ssid (String.length a) /\
    starts_with "Pixel' hector7" phone_artifact_ssid = true.
Proof.
  apply (search_output_in_file [(ssid_filename, Contents "SSID: Pixel' hector7")]
           ssid_filename phone_artifact_ssid "old").
  reflexivity.
Defined.

(** X4: the empty prefix is found at offset 0 of every file that opens, the
    empty file too: the matcher returns [true] and the first two characters
    of the file, or as many as it has. *)
Theorem search_empty_prefix (fs : FileSystem) (file prior text : string) :
  read_file fs file = Some (Contents text) ->
  search_for_phone_ssid fs file "" prior = Ok (true, take 2 text).
Proof.
  intros R. rewrite (search_read _ _ _ _ _ R), find_empty_prefix.
  now rewrite drop_zero.
Qed.

Lemma search_empty_prefix_witness :
  search_for_phone_ssid [(ssid_filename, Contents "")] ssid_filename "" "old"
  = Ok (true, take 2 "").
Proof.
  apply search_empty_prefix. reflexivity.
Defined.

(** X5: a file shorter than the prefix, the empty file with a prefix of one
    character or more among them, holds no match: the matcher returns
    [false] with an empty output. *)
Theorem search_short_file (fs : FileSystem) (file p prior text : string) :
  read_file fs file = Some (Contents text) ->
  String.length text < String.length p ->
  search_for_phone_ssid fs file p prior = Ok (false, "").
Proof.
  intros R L. rewrite (search_read _ _ _ _ _ R).
  destruct (find text p) as [i|] eqn:F; [|reflexivity].
  apply find_first in F. pose proof (occurs_at_bound _ _ _ (proj1 F)). lia.
Qed.

Lemma search_short_file_witness :
  search_for_phone_ssid [(ssid_filename, Contents "Pixel' hect")] ssid_filename
    phone_artifact_ssid "Pixel' hector42" = Ok (false, "").
Proof.
  apply (search_short_file _ _ _ _ "Pixel' hect").
  - reflexivity.
  - simpl; lia.
Defined.

(** ** Further properties of interface selection *)

(** An enumeration has a first selectable node, or none at all. *)
Lemma first_selectable_split (l : list ifaddrs) :
  (exists before node after,
      l = (before ++ node :: after)%list /\
      (forall n, In n before -> selectable n = false) /\
      selectable node = true) \/
  (forall n, In n l -> selectable n = false).
Proof.
  induction l as [|x l IH].
  - right. intros n [].
  - destruct (selectable x) eqn:Sx.
    + left. exists [], x, l. repeat split; [intros n [] | exact Sx].
    + destruct IH as [(before & node & after & -> & Hb & Hn) | Hnone].
      * left. exists (x :: before), node, after. repeat split; [|exact Hn].
        intros n [<- | Hin]; [exact Sx | now apply Hb].
      * right. intros n [<- | Hin]; [exact Sx | now apply Hnone].
Qed.

Lemma walk_none (l : list ifaddrs) (prior : string) :
  (forall n, In n l -> selectable n = false) ->
  walk_ifaddrs l prior = ([], prior, []).
Proof.
  intros H. rewrite <- (app_nil_r l). now rewrite walk_skips.
Qed.

Lemma get_some_length (s : string) (i : nat) (c : ascii) :
  String.get i s = Some c -> i < String.length s.
Proof.
  revert i; induction s as [|d s IH]; intros i H; [discriminate|].
  destruct i as [|i]; simpl in *; [lia|]. apply IH in H. lia.
Qed.

(** X6: [get_wireless_interface_name] returns 0 or -1 and nothing else.  With 0
    the output is the name of a selectable node of the enumeration; with -1
    no node is selectable and the output is as it was at the call. *)
Theorem selection_status (ifaddr : list ifaddrs) (prior : string) :
  let r := get_wireless_interface_name (GetifaddrsList ifaddr) prior in
  (fst (fst r) = 0%Z /\
   exists node,
     In node ifaddr /\ selectable node = true /\ snd (fst r) = ifa_name node) \/
  (fst (fst r) = (-1)%Z /\
   snd (fst r) = prior /\
   forall n, In n ifaddr -> selectable n = false).
Proof.
  unfold get_wireless_interface_name.
  destruct (first_selectable_split ifaddr)
    as [(before & node & after & -> & Hb & Hn) | Hnone].
  - left. rewrite walk_skips, walk_selects by assumption. simpl.
    split; [reflexivity|]. exists node. repeat split; [|exact Hn].
    apply in_or_app. right. now left.
  - right. rewrite walk_none by assumption. simpl. auto.
Qed.

(** X7: a name that comes back with status 0 has [w] as its first and [x] as
    its third character, so it is three characters or longer, and it is the
    name the one line on stderr reports; this holds for a failing
    [getifaddrs] as well, which never gives status 0. *)
Theorem selected_name_pattern
    (os : getifaddrs_result) (prior name : string) (err : list Event) :
  get_wireless_interface_name os prior = (0%Z, name, err) ->
  String.get 0 name = Some "w"%char /\
  String.get 2 name = Some "x"%char /\
  3 <= String.length name /\
  err = [Stderr ("selecting this interface: " ++ name ++ newline)].
Proof.
  destruct os as [msg | ifaddr]; [discriminate|].
  unfold get_wireless_interface_name.
  destruct (first_selectable_split ifaddr)
    as [(before & node & after & -> & Hb & Hn) | Hnone].
  - rewrite walk_skips, walk_selects by assumption.
    intros [= <- <-].
    apply selectable_spec in Hn as (addr & _ & _ & H0 & H2).
    repeat split; try assumption.
    apply get_some_length in H2. lia.
  - rewrite walk_none by assumption. discriminate.
Qed.

Lemma selected_name_pattern_witness :
  String.get 0 "wlx00c0ca" = Some "w"%char /\
  String.get 2 "wlx00c0ca" = Some "x"%char /\
  3 <= String.length "wlx00c0ca" /\
  [Stderr ("selecting this interface: " ++ "wlx00c0ca" ++ newline)]
  = [Stderr ("selecting this interface: " ++ "wlx00c0ca" ++ newline)].
Proof.
  apply (selected_name_pattern
           (GetifaddrsList
              [ {| ifa_name := "eth0"; ifa_addr := Some {| sa_family := AF_INET |} |};
                {| ifa_name := "wlx00c0ca"; ifa_addr := Some {| sa_family := AF_INET |} |} ])
           "unset").
  reflexivity.
Defined.

(** X8: nodes that are not selectable have no part in the selection, wherever
    they stand: without them the status, the output and the stderr lines
    are the same. *)
Theorem selection_ignores_unselectable (ifaddr : list ifaddrs) (prior : string) :
  get_wireless_interface_name (GetifaddrsList ifaddr) prior
  = get_wireless_interface_name
      (GetifaddrsList (filter selectable ifaddr)) prior.
Proof.
  unfold get_wireless_interface_name.
  destruct (first_selectable_split ifaddr)
    as [(before & node & after & -> & Hb & Hn) | Hnone].
  - rewrite filter_app. simpl. rewrite Hn.
    assert (Hf : forall n, In n (filter selectable before) -> selectable n = false).
    { intros n Hin. apply filter_In in Hin. now apply Hb. }
    now rewrite !walk_skips, !walk_selects by assumption.
  - assert (Hf : forall n, In n (filter selectable ifaddr) -> selectable n = false).
    { intros n Hin. apply filter_In in Hin. now apply Hnone. }
    now rewrite !walk_none by assumption.
Qed.

(** ** Further properties of the loop and of [main] *)

Lemma commands_app (l1 l2 : list Event) :
  commands (l1 ++ l2) = (commands l1 ++ commands l2)%list.
Proof.
  induction l1 as [|e l1 IH]; simpl; [reflexivity|].
  destruct e; simpl; now rewrite IH.
Qed.

Lemma last_cons_default (A : Type) (x d : A) (l : list A) :
  last (x :: l) d = last l x.
Proof.
  revert x d; induction l as [|y l IH]; intros x d; [reflexivity|].
  change (last (x :: y :: l) d) with (last (y :: l) d).
  now rewrite (IH y d), (IH y x).
Qed.

(** A pass whose scan output can be read, event by event. *)
Lemma cycle_shape (system : Shell) (fs : FileSystem) (wifiname prior : string) :
  scan_readable (snd (system (scan_command (c_str wifiname) ssid_filename) fs)) = true ->
  exists found out,
    search_for_phone_ssid
      (snd (system (scan_command (c_str wifiname) ssid_filename) fs))
      ssid_filename phone_artifact_ssid prior = Ok (found, out) /\
    cycle system fs wifiname prior
    = ([System (scan_command (c_str wifiname) ssid_filename);
        Stderr (if found then "found " ++ c_str out ++ newline
                else "did not find " ++ phone_artifact_ssid ++ newline);
        RosInfo (c_str (if found then out else ""));
        Publish topic (if found then out else "")],
       snd (system (scan_command (c_str wifiname) ssid_filename) fs),
       Ok out).
Proof.
  intros Hr. apply scan_readable_iff in Hr.
  unfold cycle, ssid_network_scan.
  destruct (system (scan_command (c_str wifiname) ssid_filename) fs) as [st fs'].
  simpl in *.
  destruct (search_returns fs' ssid_filename phone_artifact_ssid prior Hr)
    as (found & out & E).
  exists found, out. rewrite E. split; [reflexivity|]. now destruct found.
Qed.

(** A report is empty, or the prefix and up to two characters more. *)
Lemma spec_report_form (fs : FileSystem) :
  spec_report fs = "" \/
  (starts_with (spec_report fs) phone_artifact_ssid = true /\
   13 <= String.length (spec_report fs) <= 15).
Proof.
  unfold spec_report.
  destruct (read_file fs ssid_filename) as [[text|]|]; [|now left|now left].
  destruct (find text phone_artifact_ssid) as [i|] eqn:F; [|now left].
  right. apply find_first in F. destruct F as [Ho _]. split.
  - apply cut_starts_with. exact Ho.
  - pose proof (occurs_at_bound _ _ _ Ho) as B.
    rewrite length_take, length_drop. unfold strlen in *.
    change (String.length phone_artifact_ssid) with 13 in *. lia.
Qed.

(** The loop, run until [ros::ok()] fails or a read throws: what it
    returns, the commands it runs and the reports it publishes, by the
    states of the files its passes find. *)
Lemma poll_loop_run (ticks : list Shell) (fs : FileSystem) (wifiname prior : string) :
  exists events,
    poll_loop ticks fs wifiname prior
    = ((if forallb scan_readable
             (scan_states ticks (scan_command (c_str wifiname) ssid_filename) fs)
        then Some 0%Z else None),
       events,
       last (scan_states ticks (scan_command (c_str wifiname) ssid_filename) fs) fs) /\
    commands events
    = repeat (scan_command (c_str wifiname) ssid_filename)
        (List.length
           (scan_states ticks (scan_command (c_str wifiname) ssid_filename) fs)) /\
    published events
    = map spec_report
        (filter scan_readable
           (scan_states ticks (scan_command (c_str wifiname) ssid_filename) fs)).
Proof.
  revert fs prior; induction ticks as [|system ticks IH]; intros fs prior.
  - exists []. repeat split.
  - cbn [poll_loop scan_states].
    destruct (scan_readable
                (snd (system (scan_command (c_str wifiname) ssid_filename) fs)))
      eqn:Hr.
    + pose proof (cycle_report_spec system fs wifiname prior Hr) as P.
      destruct (cycle_shape system fs wifiname prior Hr) as (found & out & _ & C).
      rewrite C in P. simpl in P. injection P as P.
      rewrite C. cbv iota beta.
      destruct (IH (snd (system (scan_command (c_str wifiname) ssid_filename) fs)) out)
        as (later & -> & Hc & Hp).
      eexists. split; [|split].
      * rewrite last_cons_default. cbn [forallb]. rewrite Hr. reflexivity.
      * rewrite commands_app, Hc. reflexivity.
      * rewrite published_app, Hp. cbn [filter]. rewrite Hr. simpl. now rewrite P.
    + rewrite (cycle_unreadable system fs wifiname prior Hr).
      eexists. split; [|split].
      * cbn [forallb last]. rewrite Hr. reflexivity.
      * reflexivity.
      * cbn [filter]. rewrite Hr. reflexivity.
Qed.

(** Without a read failure every element of [ticks] has its pass. *)
Lemma scan_states_complete (ticks : list Shell) (command : string) (fs : FileSystem) :
  forallb scan_readable (scan_states ticks command fs) = true ->
  List.length (scan_states ticks command fs) = List.length ticks.
Proof.
  revert fs; induction ticks as [|system ticks IH]; intros fs; [reflexivity|].
  cbn [scan_states forallb].
  destruct (scan_readable (snd (system command fs))); [|discriminate].
  simpl. intros H. now rewrite IH.
Qed.

(** Interface selection runs no command and publishes nothing. *)
Lemma selection_quiet (os : getifaddrs_result) (prior : string) :
  commands (snd (get_wireless_interface_name os prior)) = [] /\
  published (snd (get_wireless_interface_name os prior)) = [].
Proof.
  destruct os as [msg | ifaddr]; [split; reflexivity|].
  unfold get_wireless_interface_name.
  destruct (first_selectable_split ifaddr)
    as [(before & node & after & -> & Hb & Hn) | Hnone].
  - rewrite walk_skips, walk_selects by assumption. split; reflexivity.
  - rewrite walk_none by assumption. split; reflexivity.
Qed.

(** [main], once an interface is selected. *)
Lemma main_selected
    (os : getifaddrs_result) (ticks : list Shell) (fs : FileSystem)
    (name : string) (err : list Event) :
  get_wireless_interface_name os "" = (0%Z, name, err) ->
  main os ticks fs
  = (fst (fst (poll_loop ticks fs name "")),
     (err ++ snd (fst (poll_loop ticks fs name "")))%list,
     snd (poll_loop ticks fs name "")).
Proof.
  intros S. unfold main. rewrite S. simpl.
  now destruct (poll_loop ticks fs name "") as [[code events] fs'].
Qed.

(** [main], when no interface is selected. *)
Lemma main_not_selected
    (os : getifaddrs_result) (ticks : list Shell) (fs : FileSystem) :
  fst (fst (get_wireless_interface_name os "")) <> 0%Z ->
  main os ticks fs
  = (Some 1%Z,
     (snd (get_wireless_interface_name os "")
      ++ [Stderr ("did not read wireless interface name, terminating" ++ newline)])%list,
     fs).
Proof.
  intros S. unfold main.
  destruct (get_wireless_interface_name os "") as [[status name] err].
  simpl in *. apply Z.eqb_neq in S. now rewrite S.
Qed.

(** X9: how [main] ends.  Without a selected interface it returns 1, a
    failing [getifaddrs] included, and then no command was run, nothing was
    published and the files are untouched.  With an interface selected it
    returns 0 when the scan output of every pass could be read to its end
    or not be opened; at the first pass whose scan output opens and cannot
    be read, the exception of the read, which nothing catches, ends the
    process without an exit code. *)
Theorem main_exit_code
    (os : getifaddrs_result) (ticks : list Shell) (fs : FileSystem) :
  fst (fst (main os ticks fs))
  = (if Z.eqb (fst (fst (get_wireless_interface_name os ""))) 0
     then if forallb scan_readable
               (scan_states ticks
                  (scan_command
                     (c_str (snd (fst (get_wireless_interface_name os ""))))
                     ssid_filename)
                  fs)
          then Some 0%Z else None
     else Some 1%Z) /\
  (fst (fst (get_wireless_interface_name os "")) <> 0%Z ->
   commands (snd (fst (main os ticks fs))) = [] /\
   published (snd (fst (main os ticks fs))) = [] /\
   snd (main os ticks fs) = fs).
Proof.
  destruct (selection_quiet os "") as [Qc Qp].
  destruct (Z.eqb_spec (fst (fst (get_wireless_interface_name os ""))) 0)
    as [E | N].
  - split; [|intros N; contradiction].
    destruct (get_wireless_interface_name os "") as [[status name] err] eqn:S.
    simpl in E; subst status.
    rewrite (main_selected _ ticks fs _ _ S).
    destruct (poll_loop_run ticks fs name "") as (events & -> & _).
    reflexivity.
  - rewrite (main_not_selected _ ticks fs N). split; [reflexivity|].
    intros _. simpl. rewrite commands_app, published_app, Qc, Qp.
    repeat split.
Qed.

(** X10: with an interface selected, [main] runs one command for every pass
    that runs and no other, always the same: [iwlist], scoped to the
    selected name, with its [SSID] lines sent to [ssid_list.txt].  The
    passes that run are those of [scan_states]: all of them unless a read
    fails. *)
Theorem main_commands
    (os : getifaddrs_result) (ticks : list Shell) (fs : FileSystem)
    (name : string) (err : list Event) :
  get_wireless_interface_name os "" = (0%Z, name, err) ->
  commands (snd (fst (main os ticks fs)))
  = repeat ("iwlist " ++ c_str name ++ " scan | grep SSID > ssid_list.txt")
      (List.length
         (scan_states ticks (scan_command (c_str name) ssid_filename) fs)) /\
  (forallb scan_readable
     (scan_states ticks (scan_command (c_str name) ssid_filename) fs) = true ->
   List.length (commands (snd (fst (main os ticks fs)))) = List.length ticks).
Proof.
  intros S. rewrite (main_selected _ ticks fs _ _ S).
  destruct (selection_quiet os "") as [Qc _]. rewrite S in Qc. simpl in Qc.
  destruct (poll_loop_run ticks fs name "") as (events & -> & Hc & _).
  simpl. rewrite commands_app, Qc, Hc. split; [reflexivity|].
  intros Hr. simpl. rewrite repeat_length. now apply scan_states_complete.
Qed.

Lemma main_commands_witness :
  commands
    (snd (fst (main
       (GetifaddrsList
          [ {| ifa_name := "wlx00c0ca"; ifa_addr := Some {| sa_family := AF_INET |} |} ])
       [system_not_started; system_writes ssid_filename "SSID: HomeNet"] [])))
  = repeat ("iwlist " ++ c_str "wlx00c0ca" ++ " scan | grep SSID > ssid_list.txt")
      (List.length
         (scan_states [system_not_started; system_writes ssid_filename "SSID: HomeNet"]
            (scan_command (c_str "wlx00c0ca") ssid_filename) [])) /\
  (forallb scan_readable
     (scan_states [system_not_started; system_writes ssid_filename "SSID: HomeNet"]
        (scan_command (c_str "wlx00c0ca") ssid_filename) []) = true ->
   List.length
     (commands
        (snd (fst (main
           (GetifaddrsList
              [ {| ifa_name := "wlx00c0ca";
                   ifa_addr := Some {| sa_family := AF_INET |} |} ])
           [system_not_started; system_writes ssid_filename "SSID: HomeNet"] []))))
   = List.length [system_not_started; system_writes ssid_filename "SSID: HomeNet"]).
Proof.
  apply (main_commands _ _ _ _
           [Stderr ("selecting this interface: " ++ "wlx00c0ca" ++ newline)]).
  reflexivity.
Defined.

(** X11: with an interface selected, the reports [main] publishes are, in
    order, the Reports of the files as the scans of the passes left them,
    for the passes whose scan output could be read or not be opened: one
    report for each such pass, decided by the state of the files at that
    moment alone, and none for a pass whose read fails. *)
Theorem main_reports
    (os : getifaddrs_result) (ticks : list Shell) (fs : FileSystem)
    (name : string) (err : list Event) :
  get_wireless_interface_name os "" = (0%Z, name, err) ->
  published (snd (fst (main os ticks fs)))
  = map spec_report
      (filter scan_readable
         (scan_states ticks (scan_command (c_str name) ssid_filename) fs)).
Proof.
  intros S. rewrite (main_selected _ ticks fs _ _ S).
  destruct (selection_quiet os "") as [_ Qp]. rewrite S in Qp. simpl in Qp.
  destruct (poll_loop_run ticks fs name "") as (events & -> & _ & Hp).
  simpl. rewrite published_app, Qp, Hp. reflexivity.
Qed.

Lemma main_reports_witness :
  published
    (snd (fst (main
       (GetifaddrsList
          [ {| ifa_name := "wlx00c0ca"; ifa_addr := Some {| sa_family := AF_INET |} |} ])
       [system_writes ssid_filename "SSID: HomeNet";
        system_writes ssid_filename "SSID: Pixel' hector42";
        (fun _ _ => (1%Z, [(ssid_filename, Unreadable)]));
        system_writes ssid_filename "SSID: Pixel' hector17"] [])))
  = map spec_report
      (filter scan_readable
         (scan_states
            [system_writes ssid_filename "SSID: HomeNet";
             system_writes ssid_filename "SSID: Pixel' hector42";
             (fun _ _ => (1%Z, [(ssid_filename, Unreadable)]));
             system_writes ssid_filename "SSID: Pixel' hector17"]
            (scan_command (c_str "wlx00c0ca") ssid_filename) [])).
Proof.
  apply (main_reports _ _ _ _
           [Stderr ("selecting this interface: " ++ "wlx00c0ca" ++ newline)]).
  reflexivity.
Defined.

(** The reports of that run: the third pass ends it. *)
Example main_reports_run :
  map spec_report
    (filter scan_readable
       (scan_states
          [system_writes ssid_filename "SSID: HomeNet";
           system_writes ssid_filename "SSID: Pixel' hector42";
           (fun _ _ => (1%Z, [(ssid_filename, Unreadable)]));
           system_writes ssid_filename "SSID: Pixel' hector17"]
          (scan_command (c_str "wlx00c0ca") ssid_filename) []))
  = [""; "Pixel' hector42"].
Proof. reflexivity. Qed.

(** X12: [main] writes no file of its own: with an interface selected, the
    files it leaves are those the scan command of the last pass that ran
    left, and the files it was started with when there was no pass. *)
Theorem main_files
    (os : getifaddrs_result) (ticks : list Shell) (fs : FileSystem)
    (name : string) (err : list Event) :
  get_wireless_interface_name os "" = (0%Z, name, err) ->
  snd (main os ticks fs)
  = last (scan_states ticks (scan_command (c_str name) ssid_filename) fs) fs.
Proof.
  intros S. rewrite (main_selected _ ticks fs _ _ S).
  destruct (poll_loop_run ticks fs name "") as (events & -> & _).
  reflexivity.
Qed.

Lemma main_files_witness :
  snd (main
         (GetifaddrsList
            [ {| ifa_name := "wlx00c0ca"; ifa_addr := Some {| sa_family := AF_INET |} |} ])
         [system_writes ssid_filename "SSID: HomeNet"; system_not_started]
         [("notes.txt", Contents "kept")])
  = last (scan_states
            [system_writes ssid_filename "SSID: HomeNet"; system_not_started]
            (scan_command (c_str "wlx00c0ca") ssid_filename)
            [("notes.txt", Contents "kept")])
      [("notes.txt", Contents "kept")].
Proof.
  apply (main_files _ _ _ _
           [Stderr ("selecting this interface: " ++ "wlx00c0ca" ++ newline)]).
  reflexivity.
Defined.

(** X13: whatever the interfaces, the scans and the files, every report [main]
    publishes is the empty string or begins with [Pixel' hector] and is 13
    to 15 characters long: a report of a match is never empty. *)
Theorem reports_well_formed
    (os : getifaddrs_result) (ticks : list Shell) (fs : FileSystem) :
  Forall
    (fun report =>
       report = "" \/
       (starts_with report "Pixel' hector" = true /\
        13 <= String.length report <= 15))
    (published (snd (fst (main os ticks fs)))).
Proof.
  destruct (get_wireless_interface_name os "") as [[status name] err] eqn:S.
  destruct (Z.eqb_spec status 0) as [-> | N].
  - destruct (selection_quiet os "") as [_ Qp]. rewrite S in Qp. simpl in Qp.
    rewrite (main_selected _ ticks fs _ _ S).
    destruct (poll_loop_run ticks fs name "") as (events & -> & _ & Hp).
    simpl. rewrite published_app, Qp, Hp. simpl.
    apply Forall_forall. intros report Hin.
    apply in_map_iff in Hin as (fs' & <- & _).
    apply spec_report_form.
  - destruct (selection_quiet os "") as [_ Qp].
    rewrite main_not_selected by (rewrite S; exact N).
    simpl. rewrite published_app, Qp. constructor.
Qed.

(** With a prefix of one character or more, a match is not empty. *)
Lemma match_not_empty (fs : FileSystem) (file p prior out : string) :
  search_for_phone_ssid fs file p prior = Ok (true, out) ->
  p <> "" -> out <> "".
Proof.
  intros H Hp. destruct (read_file fs file) as [[text|]|] eqn:R.
  - rewrite (search_read _ _ _ _ _ R) in H.
    destruct (find text p) as [i|] eqn:F; [|discriminate].
    injection H as <-. apply find_first in F.
    pose proof (cut_starts_with _ _ _ 2 (proj1 F)) as Hs.
    intros E. rewrite E in Hs. destruct p; [now apply Hp | discriminate].
  - rewrite (search_unreadable _ _ _ _ R) in H. discriminate.
  - rewrite (search_not_opened _ _ _ _ R) in H. discriminate.
Qed.

(** X14: in every pass whose scan output can be read to its end or not be
    opened, the log and the report agree.  The pass runs the scan command,
    writes one line to stderr, logs the report and publishes it, in this
    order; the line is [did not find Pixel' hector] when the report is
    empty, and [found] with the report when it is not; what is logged is
    the report up to its first NUL character. *)
Theorem cycle_log_matches_report
    (system : Shell) (fs : FileSystem) (wifiname prior : string) :
  read_file (snd (system (scan_command (c_str wifiname) ssid_filename) fs))
    ssid_filename <> Some Unreadable ->
  exists line report,
    fst (fst (cycle system fs wifiname prior))
    = [System (scan_command (c_str wifiname) ssid_filename);
       Stderr line;
       RosInfo (c_str report);
       Publish "wifiAvailable" report] /\
    ((report = "" /\ line = "did not find Pixel' hector" ++ newline) \/
     (report <> "" /\ line = "found " ++ c_str report ++ newline)).
Proof.
  intros N. apply scan_readable_iff in N.
  destruct (cycle_shape system fs wifiname prior N) as (found & out & E & C).
  rewrite C. simpl.
  eexists _, _. split; [reflexivity|].
  destruct found.
  - right. split; [|reflexivity].
    apply (match_not_empty _ _ _ _ _ E). discriminate.
  - left. split; reflexivity.
Qed.

Lemma cycle_log_matches_report_witness :
  exists line report,
    fst (fst (cycle (system_writes ssid_filename "SSID: Pixel' hector42")
                [] "wlx00c0ca" "old"))
    = [System (scan_command (c_str "wlx00c0ca") ssid_filename);
       Stderr line;
       RosInfo (c_str report);
       Publish "wifiAvailable" report] /\
    ((report = "" /\ line = "did not find Pixel' hector" ++ newline) \/
     (report <> "" /\ line = "found " ++ c_str report ++ newline)).
Proof.
  apply (cycle_log_matches_report
           (system_writes ssid_filename "SSID: Pixel' hector42") [] "wlx00c0ca" "old").
  simpl. discriminate.
Defined.


